(** * A shallow embedding of package resample (resample.go)

    The package wraps a libsoxr stream resampler behind an io.WriteCloser.
    The native engine (soxr_create, soxr_process, soxr_clear, soxr_delete)
    and the destination io.Writer are opaque: every call to them is recorded
    as an event of a trace, and their answers come from oracles that may
    look at the whole trace so far (so they may depend on the engine's
    internal history).  Go's float64 arithmetic is modelled with Rocq's
    primitive binary64 floats. *)

From Stdlib Require Import ZArith List String Bool Floats Lia.
Import ListNotations.
Open Scope Z_scope.

(** ** Constants of the package *)

(* Quality settings *)
Definition Quick : Z := 0.
Definition LowQ : Z := 1.
Definition MediumQ : Z := 2.
Definition HighQ : Z := 4.
Definition VeryHighQ : Z := 6.

(* Input formats *)
Definition F32 : Z := 0.
Definition F64 : Z := 1.
Definition I32 : Z := 2.
Definition I16 : Z := 3.

(** ** Go numeric conversions on float64 *)

(** [float64(i)] for a Go int: round to nearest binary64. *)
Definition float64_of_int (z : Z) : float :=
  SF2Prim (SpecFloat.binary_normalize 53 1024 z 0 false).

(** [int(f)] for a Go float64: truncation toward zero.  NaN and infinities
    are implementation-specific in Go; they are sent to 0 here. *)
Definition int_of_float64 (f : float) : Z :=
  match Prim2SF f with
  | S754_finite s m e =>
      let a := if 0 <=? e then Z.shiftl (Zpos m) e else Z.shiftr (Zpos m) (- e) in
      if s then - a else a
  | _ => 0
  end.

(** ** Go integer conversions *)

(** Two's-complement wrap-around to [bits] bits, signed: what Go's [int]
    (64 bits) arithmetic and conversion to [C.int] (32 bits) do. *)
Definition wrap_signed (bits : Z) (x : Z) : Z :=
  let m := x mod 2 ^ bits in
  if 2 ^ (bits - 1) <=? m then m - 2 ^ bits else m.

Definition go_int (x : Z) : Z := wrap_signed 64 x.
Definition c_int (x : Z) : Z := wrap_signed 32 x.

(** ** Errors, handles, writers and the event trace *)

(** A Go [error]: [None] is nil. *)
Definition error := option string.

(** A [C.soxr_t] handle value, and the identity of an [io.Writer]. *)
Definition handle := Z.
Definition writer := Z.

Inductive event :=
  | EvCreate (inRate outRate : float) (channels inFormat outFormat quality threads : Z)
  | EvProcess (h : option handle) (inBytes framesIn framesOut : Z)
  | EvWrite (w : writer) (nbytes : Z)
  | EvClear (h : handle)
  | EvDelete (h : handle).

(** The Go struct: [resampler] is [None] when the C pointer is nil. *)
Record Resampler := mkResampler {
  resampler : option handle;
  inRate : float;
  outRate : float;
  channels : Z;
  inFrameSize : Z;
  outFrameSize : Z;
  destination : writer
}.

Definition set_resampler (r : Resampler) (h : option handle) : Resampler :=
  mkResampler h (inRate r) (outRate r) (channels r) (inFrameSize r)
    (outFrameSize r) (destination r).

Definition set_destination (r : Resampler) (w : writer) : Resampler :=
  mkResampler (resampler r) (inRate r) (outRate r) (channels r) (inFrameSize r)
    (outFrameSize r) w.

(** ** A state monad over the trace *)

Definition M (A : Type) : Type := list event -> A * list event.

Definition ret {A} (a : A) : M A := fun tr => (a, tr).

Definition bind {A B} (m : M A) (k : A -> M B) : M B :=
  fun tr => let (a, tr') := m tr in k a tr'.

Notation "x <- m ;; k" := (bind m (fun x => k))
  (at level 61, m at next level, right associativity).
Notation "' p <- m ;; k" := (bind m (fun p => k))
  (at level 61, p pattern, m at next level, right associativity).

(** [C.GoString(soxErr) != "" && C.GoString(soxErr) != "0"] *)
Definition soxr_failed (s : string) : bool :=
  negb (String.eqb s "") && negb (String.eqb s "0").

(** [sizeOf] in [New]. *)
Definition sizeOf (format : Z) : Z * error :=
  if format =? F64 then (8, None)
  else if format =? F32 then (4, None)
  else if format =? I32 then (4, None)
  else if format =? I16 then (2, None)
  else (0, Some "invalid format setting"%string).

(** [len(p) / r.inFrameSize / r.channels] (Go's truncating division). *)
Definition frames_in (r : Resampler) (len : Z) : Z :=
  Z.quot (Z.quot len (inFrameSize r)) (channels r).

(** [int(float64(framesIn) * (r.outRate / r.inRate))] *)
Definition frames_out (r : Resampler) (framesIn : Z) : Z :=
  int_of_float64 (PrimFloat.mul (float64_of_int framesIn)
                                (PrimFloat.div (outRate r) (inRate r))).

(** [C.int(int(done)*r.channels*r.outFrameSize)], the length handed to
    [C.GoBytes] in [Write] and [flush].  [C.GoBytes] panics on a negative
    length, so a run whose count is negative ends in a panic in Go; the
    model still records its [EvWrite] and the properties below that
    speak of the count assume it is not negative. *)
Definition write_count (r : Resampler) (done : Z) : Z :=
  c_int (go_int (go_int (go_int done * channels r) * outFrameSize r)).

(** [framesOut := 4096 * 16] in [flush]. *)
Definition flush_frames : Z := 4096 * 16.

Section Resample.

(** [threads = runtime.NumCPU()] *)
Variable threads : Z.
(** Answers of the engine and of the writers: the handle and [soxErr] of
    [soxr_create]; the [soxErr] and [done] of [soxr_process]; the error of
    [destination.Write].  Each sees the trace including its own call. *)
Variable soxr_create_oracle : list event -> handle * string.
Variable soxr_process_oracle : list event -> string * Z.
Variable write_oracle : list event -> error.

Definition call {A} (e : event) (o : list event -> A) : M A :=
  fun tr => let tr' := tr ++ [e] in (o tr', tr').

Definition emit (e : event) : M unit := fun tr => (tt, tr ++ [e]).

Definition soxr_create (inputRate outputRate : float) (ch inF outF q : Z)
  : M (handle * string) :=
  call (EvCreate inputRate outputRate ch inF outF q threads) soxr_create_oracle.

Definition soxr_process (h : option handle) (inBytes framesIn framesOut : Z)
  : M (string * Z) :=
  call (EvProcess h inBytes framesIn framesOut) soxr_process_oracle.

Definition dest_write (w : writer) (nbytes : Z) : M error :=
  call (EvWrite w nbytes) write_oracle.

Definition soxr_clear (h : handle) : M unit := emit (EvClear h).
Definition soxr_delete (h : handle) : M unit := emit (EvDelete h).

(** [New]: the writer is [None] when it is a nil io.Writer. *)
Definition New (w : option writer) (inputRate outputRate : float)
    (chans inFormat outFormat quality : Z) : M (option Resampler * error) :=
  match w with
  | None => ret (None, Some "io.Writer is nil"%string)
  | Some wr =>
    if PrimFloat.leb inputRate 0 || PrimFloat.leb outputRate 0 then
      ret (None, Some "invalid input or output sampling rates"%string)
    else if chans =? 0 then
      ret (None, Some "invalid channels number"%string)
    else if (quality <? 0) || (quality >? 6) then
      ret (None, Some "invalid quality setting"%string)
    else
      let (inSize, e1) := sizeOf inFormat in
      match e1 with
      | Some _ => ret (None, e1)
      | None =>
        let (outSize, e2) := sizeOf outFormat in
        match e2 with
        | Some _ => ret (None, e2)
        | None =>
          ' (soxr, soxErr) <- soxr_create inputRate outputRate chans inFormat outFormat quality ;;
          if soxr_failed soxErr then ret (None, Some soxErr)
          else ret (Some (mkResampler (Some soxr) inputRate outputRate chans
                                      inSize outSize wr), None)
        end
      end
  end.

(** [flush]: process with no input, then hand [done] frames to the writer. *)
Definition flush (r : Resampler) : M error :=
  ' (soxErr, done) <- soxr_process (resampler r) 0 0 flush_frames ;;
  if soxr_failed soxErr then ret (Some soxErr)
  else dest_write (destination r) (write_count r done).

(** [Reset] (the new writer is taken non-nil). *)
Definition Reset (r : Resampler) (w : writer) : M (Resampler * error) :=
  match resampler r with
  | None => ret (r, Some "soxr resampler is nil"%string)
  | Some h =>
    err <- flush r ;;
    let r' := set_destination r w in
    _ <- soxr_clear h ;;
    ret (r', err)
  end.

(** [Close] *)
Definition Close (r : Resampler) : M (Resampler * error) :=
  match resampler r with
  | None => ret (r, Some "soxr resampler is nil"%string)
  | Some h =>
    err <- flush r ;;
    _ <- soxr_delete h ;;
    ret (set_resampler r None, err)
  end.

(** [Write]: returns [(i, err)]; the bytes of [p] only matter by length. *)
Definition Write (r : Resampler) (p : list Byte.byte) : M (Z * error) :=
  match resampler r with
  | None => ret (0, Some "soxr resampler is nil"%string)
  | Some h =>
    let len := Z.of_nat (List.length p) in
    if len =? 0 then ret (0, None) else
    let framesIn := frames_in r len in
    if framesIn =? 0 then ret (0, Some "incomplete input frame data"%string) else
    let framesOut := frames_out r framesIn in
    if framesOut =? 0 then ret (0, Some "not enough input to generate output"%string) else
    ' (soxErr, done) <- soxr_process (Some h) len framesIn framesOut ;;
    if soxr_failed soxErr then ret (0, Some soxErr) else
    err <- dest_write (destination r) (write_count r done) ;;
    match err with
    | None => ret (len, None)
    | Some _ => ret (0, err)
    end
  end.

End Resample.

(** ** Concrete engines and writers, for evaluation *)

(** An engine whose [soxr_create] returns handle 7 with no error, and whose
    [soxr_process] reports success with [done] frames. *)
Definition demo_create (tr : list event) : handle * string := (7, ""%string).
Definition demo_process (done : Z) (tr : list event) : string * Z := (""%string, done).
(** A writer that accepts everything, and one that always fails. *)
Definition demo_write_ok (tr : list event) : error := None.
Definition demo_write_fail (tr : list event) : error := Some "short write"%string.

(** 1.0, 49.0 and the binary64 nearest to 1/3 (0.333...331). *)
Definition one_f : float := Eval cbv in float64_of_int 1.
Definition f49 : float := Eval cbv in float64_of_int 49.
Definition third_f : float := Eval cbv in PrimFloat.div (float64_of_int 1) (float64_of_int 3).

(** A mono F32 resampler with handle 7 writing to writer 1. *)
Definition mono_f32 (inr outr : float) : Resampler :=
  mkResampler (Some 7) inr outr 1 4 4 1.

Definition bytes (n : nat) : list Byte.byte := repeat Byte.x00 n.

Example write_5_bytes :
  Write (demo_process 1) demo_write_ok (mono_f32 one_f one_f) (bytes 5) []
  = ((5, None), [EvProcess (Some 7) 5 1 1; EvWrite 1 4]).
Proof. reflexivity. Qed.

(** The output budget as the spec words it, [floor(framesIn * outputRate /
    inputRate)], computed exactly on the real values of the two float64
    rates (both taken positive and finite; anything else gives 0). *)
Definition spec_frames_out (r : Resampler) (framesIn : Z) : Z :=
  match Prim2SF (inRate r), Prim2SF (outRate r) with
  | S754_finite false mi ei, S754_finite false mo eo =>
      let e := eo - ei in
      if 0 <=? e then (framesIn * Zpos mo * 2 ^ e) / Zpos mi
      else (framesIn * Zpos mo) / (Zpos mi * 2 ^ (- e))
  | _, _ => 0
  end.

(** 8000.0 and 16000.0 *)
Definition f8000 : float := Eval cbv in float64_of_int 8000.
Definition f16000 : float := Eval cbv in float64_of_int 16000.

(** A stereo I16 resampler from 16 kHz to 8 kHz (4-byte frames). *)
Definition stereo_i16 : Resampler := mkResampler (Some 7) f16000 f8000 2 2 2 1.

Lemma sizeOf_ok f : 0 <= f <= 3 -> snd (sizeOf f) = None.
Proof.
  intro H. assert (f = 0 \/ f = 1 \/ f = 2 \/ f = 3) as [->|[->|[->| ->]]]
    by lia; reflexivity.
Qed.

Lemma sizeOf_err f : snd (sizeOf f) = None -> 0 <= f <= 3.
Proof.
  unfold sizeOf, F64, F32, I32, I16.
  destruct (f =? 1) eqn:E1; [apply Z.eqb_eq in E1; lia|].
  destruct (f =? 0) eqn:E0; [apply Z.eqb_eq in E0; lia|].
  destruct (f =? 2) eqn:E2; [apply Z.eqb_eq in E2; lia|].
  destruct (f =? 3) eqn:E3; [apply Z.eqb_eq in E3; lia|].
  discriminate.
Qed.

Lemma sizeOf_msg f e :
  snd (sizeOf f) = Some e -> e = "invalid format setting"%string.
Proof.
  unfold sizeOf. destruct (f =? F64), (f =? F32), (f =? I32), (f =? I16);
    simpl; congruence.
Qed.

Lemma frames_in_floor r n :
  0 < inFrameSize r -> 0 < channels r -> 0 <= n ->
  frames_in r n = n / (inFrameSize r * channels r).
Proof.
  intros Ha Hb Hn. unfold frames_in.
  rewrite (Z.quot_div_nonneg n) by lia.
  rewrite Z.quot_div_nonneg; [|apply Z.div_pos; lia|lia].
  apply Z.div_div; lia.
Qed.

(** ** Callers of the package *)

(** A client of the io.WriteCloser: a sequence of public calls. *)
Inductive op :=
  | OWrite (p : list Byte.byte)
  | OReset (w : writer)
  | OClose.

(** The error of a [src.Read]. *)
Inductive read_err :=
  | EOF
  | ReadErr (msg : string).

(** [io.ErrShortWrite] and [errInvalidWrite] of package io. *)
Definition errShortWrite : string := "short write".
Definition errInvalidWrite : string := "invalid write result".

(** The buffer size of [io.Copy] (32 KiB). *)
Definition copy_buf : nat := 32 * 1024.

(** The reads [io.Copy] sees from a regular file holding [n] bytes after the
    current offset: full buffers, then the remainder if any, then [0, EOF]. *)
Definition file_reads (n : nat) : list (list Byte.byte * option read_err) :=
  repeat (bytes copy_buf, None) (n / copy_buf)
  ++ (if Nat.eqb (n mod copy_buf) 0 then [] else [(bytes (n mod copy_buf), None)])
  ++ [([], Some EOF)].

Section Clients.

Variable po : list event -> string * Z.
Variable wo : list event -> error.

(** One public call; the results the client gets back are dropped. *)
Definition step (r : Resampler) (o : op) : M Resampler :=
  match o with
  | OWrite p => _ <- Write po wo r p ;; ret r
  | OReset w => ' (r', _) <- Reset po wo r w ;; ret r'
  | OClose => ' (r', _) <- Close po wo r ;; ret r'
  end.

Fixpoint run_ops (r : Resampler) (ops : list op) : M Resampler :=
  match ops with
  | [] => ret r
  | o :: os => r' <- step r o ;; run_ops r' os
  end.

(** The tail of one round of [copyBuffer]: [if er != nil { if er != EOF
    { err = er }; break }], otherwise go on with [k]. *)
Definition after_read (er : option read_err) (k : Z -> M (Z * error))
    (written : Z) : M (Z * error) :=
  match er with
  | None => k written
  | Some EOF => ret (written, None)
  | Some (ReadErr e) => ret (written, Some e)
  end.

(** [io.Copy(res, input)] (the generic [copyBuffer] loop; the Resampler is
    no [io.ReaderFrom]), fed with the given results of [src.Read]; running
    out of reads counts as EOF. *)
Fixpoint Copy (r : Resampler) (reads : list (list Byte.byte * option read_err))
    (written : Z) : M (Z * error) :=
  match reads with
  | [] => ret (written, None)
  | (buf, er) :: rest =>
    let nr := Z.of_nat (List.length buf) in
    if 0 <? nr then
      ' (nw, ew) <- Write po wo r buf ;;
      let bad := (nw <? 0) || (nr <? nw) in
      let nw' := if bad then 0 else nw in
      let ew' := if bad then match ew with
                             | None => Some errInvalidWrite
                             | Some _ => ew
                             end
                 else ew in
      let written' := written + nw' in
      match ew' with
      | Some _ => ret (written', ew')
      | None =>
        if negb (nr =? nw') then ret (written', Some errShortWrite)
        else after_read er (Copy r rest) written'
      end
    else after_read er (Copy r rest) written
  end.

(** main, lines 99-102: [_, err = io.Copy(res, input); res.Close()]; the
    error of [res.Close()] is dropped, the copy's error is what main acts
    on. *)
Definition copy_then_close (r : Resampler)
    (reads : list (list Byte.byte * option read_err)) : M error :=
  ' (_, err) <- Copy r reads 0 ;;
  _ <- Close po wo r ;;
  ret err.

End Clients.

(** [strings.ToLower] on an ASCII string (its fast path: 'A'..'Z' mapped to
    'a'..'z').  Its path for non-ASCII strings (Unicode case mapping) is not
    modelled: [None]. *)
Definition ascii_lower (c : Ascii.ascii) : Ascii.ascii :=
  let n := Ascii.nat_of_ascii c in
  if (65 <=? n)%nat && (n <=? 90)%nat then Ascii.ascii_of_nat (n + 32) else c.

Fixpoint lower_string (s : string) : string :=
  match s with
  | EmptyString => EmptyString
  | String c s' => String (ascii_lower c) (lower_string s')
  end.

Fixpoint is_ascii (s : string) : bool :=
  match s with
  | EmptyString => true
  | String c s' => (Ascii.nat_of_ascii c <? 128)%nat && is_ascii s'
  end.

Definition ToLower (s : string) : option string :=
  if is_ascii s then Some (lower_string s) else None.

(** [strToFormat] of the command (cmd/goresample/main.go). *)
Definition strToFormat (format : string) : option (Z * error) :=
  match ToLower format with
  | None => None
  | Some l =>
    Some (if String.eqb l "i16" then (I16, None)
          else if String.eqb l "i32" then (I32, None)
          else if String.eqb l "f32" then (F32, None)
          else if String.eqb l "f64" then (F64, None)
          else (0, Some ("unknown format " ++ format)%string))
  end.

(** The characters [strings.ToLower] sends to [d], and the strings it sends
    to [t]. *)
Definition all_ascii : list Ascii.ascii := map Ascii.ascii_of_nat (seq 0 256).

Definition lower_preimage (d : Ascii.ascii) : list Ascii.ascii :=
  filter (fun c => if Ascii.ascii_dec (ascii_lower c) d then true else false) all_ascii.

Fixpoint string_preimages (t : string) : list string :=
  match t with
  | EmptyString => [EmptyString]
  | String d t' =>
    flat_map (fun c => map (String c) (string_preimages t')) (lower_preimage d)
  end.

(** The format names [strToFormat] accepts. *)
Definition format_names : list (string * Z) :=
  [("i16", I16); ("I16", I16); ("i32", I32); ("I32", I32);
   ("f32", F32); ("F32", F32); ("f64", F64); ("F64", F64)]%string.

(** Any handle set up by the client: every event is a call on [h]. *)
Definition on_handle (h : handle) (e : event) : Prop :=
  match e with
  | EvProcess ho _ _ _ => ho = Some h
  | EvWrite _ _ => True
  | EvClear h' => h' = h
  | EvCreate _ _ _ _ _ _ _ | EvDelete _ => False
  end.

(** The configurations [New]'s validation lets through to [soxr_create]. *)
Definition new_admits (w : option writer) (ir or : float) (ch inF outF q : Z) : Prop :=
  w <> None /\ PrimFloat.leb ir 0 = false /\ PrimFloat.leb or 0 = false /\
  ch <> 0 /\ 0 <= q <= 6 /\ 0 <= inF <= 3 /\ 0 <= outF <= 3.

(** ** Properties *)

Section Properties.

Variable threads : Z.
Variable po : list event -> string * Z.
Variable wo : list event -> error.
Variable co : list event -> handle * string.

Definition nil_msg : error := Some "soxr resampler is nil"%string.

(** The result of a [Write] of [len] bytes is all-or-nothing. *)
Definition all_or_nothing (len : Z) (res : Z * error) : Prop :=
  (fst res = len /\ snd res = None) \/ (fst res = 0 /\ snd res <> None).

(** Every destination write among [l] goes to [w]. *)
Definition writes_to (w : writer) (l : list event) : Prop :=
  forall w' n, In (EvWrite w' n) l -> w' = w.

(** The events [flush r] adds: one [soxr_process] with no input, then
    possibly one write to the current destination. *)
Definition flush_events (r : Resampler) (fl : list event) : Prop :=
  fl = [EvProcess (resampler r) 0 0 flush_frames]
  \/ exists n, fl = [EvProcess (resampler r) 0 0 flush_frames; EvWrite (destination r) n].

Ltac run :=
  unfold Write, Close, Reset, flush, soxr_process, dest_write, soxr_clear,
    soxr_delete, bind, ret, call, emit in *;
  cbv beta iota zeta in *.

Lemma app_cons_neq {A} (l m : list A) (a : A) : l <> l ++ a :: m.
Proof.
  intro H. apply (f_equal (@List.length A)) in H.
  rewrite length_app in H. simpl in H. lia.
Qed.

Lemma flush_spec r tr :
  exists fl, snd (flush po wo r tr) = tr ++ fl /\ flush_events r fl.
Proof.
  run.
  destruct (po (tr ++ [EvProcess (resampler r) 0 0 flush_frames])) as [s d].
  destruct (soxr_failed s); simpl.
  - exists [EvProcess (resampler r) 0 0 flush_frames]. split; [reflexivity|now left].
  - eexists. split; [rewrite <- app_assoc; reflexivity|right; eexists; reflexivity].
Qed.

Lemma Close_closes r tr : resampler (fst (fst (Close po wo r tr))) = None.
Proof.
  run. destruct (resampler r) eqn:E; [|exact E].
  destruct (po _) as [s d]. destruct (soxr_failed s); reflexivity.
Qed.

Lemma Write_nil_handle r p tr :
  resampler r = None -> Write po wo r p tr = ((0, nil_msg), tr).
Proof. intro E. run. now rewrite E. Qed.

Lemma Close_nil_handle r tr :
  resampler r = None -> Close po wo r tr = ((r, nil_msg), tr).
Proof. intro E. run. now rewrite E. Qed.

(** C2: every [Write] either reports [len(p)] with a nil error or 0 with a
    non-nil error; when the destination write fails (after the engine has
    processed the input), the call returns that error with 0 consumed. *)
Theorem Write_all_or_nothing :
  (forall r p tr,
     all_or_nothing (Z.of_nat (List.length p)) (fst (Write po wo r p tr))) /\
  (forall r p tr h fi fo n e,
     snd (Write po wo r p tr)
       = tr ++ [EvProcess (Some h) (Z.of_nat (List.length p)) fi fo;
                EvWrite (destination r) n] ->
     wo (snd (Write po wo r p tr)) = Some e ->
     fst (Write po wo r p tr) = (0, Some e)).
Proof.
  split.
  - intros r p tr. unfold all_or_nothing. run.
    destruct (resampler r) as [h|]; simpl; [|right; split; [reflexivity|discriminate]].
    destruct (Z.of_nat (List.length p) =? 0) eqn:E0; simpl.
    { left. split; [|reflexivity]. symmetry. now apply Z.eqb_eq. }
    destruct (frames_in r _ =? 0); simpl; [right; split; [reflexivity|discriminate]|].
    destruct (frames_out r _ =? 0); simpl; [right; split; [reflexivity|discriminate]|].
    destruct (po _) as [s d]. destruct (soxr_failed s); simpl;
      [right; split; [reflexivity|discriminate]|].
    destruct (wo _); simpl; [right; split; [reflexivity|discriminate]|].
    left; split; reflexivity.
  - intros r p tr h fi fo n e Htr He. revert Htr He. run.
    destruct (resampler r) as [h'|]; simpl;
      [|intro Htr; exfalso; eapply app_cons_neq; exact Htr].
    destruct (Z.of_nat (List.length p) =? 0); simpl;
      [intro Htr; exfalso; eapply app_cons_neq; exact Htr|].
    destruct (frames_in r _ =? 0); simpl;
      [intro Htr; exfalso; eapply app_cons_neq; exact Htr|].
    destruct (frames_out r _ =? 0); simpl;
      [intro Htr; exfalso; eapply app_cons_neq; exact Htr|].
    destruct (po _) as [s d]. destruct (soxr_failed s); simpl.
    + intro Htr. exfalso. apply app_inv_head in Htr. discriminate.
    + rewrite <- app_assoc. simpl.
      destruct (wo (tr ++ _)) eqn:Hw; simpl; intros _ He;
        rewrite Hw in He; [injection He as ->; reflexivity | discriminate He].
Qed.

(** C3: once closed, a second [Close] and any [Write] fail with the
    "soxr resampler is nil" misuse error and do nothing. *)
Theorem Close_then_misuse :
  forall r tr tr2 tr3 p,
    let r' := fst (fst (Close po wo r tr)) in
    Close po wo r' tr2 = ((r', nil_msg), tr2) /\
    Write po wo r' p tr3 = ((0, nil_msg), tr3).
Proof.
  intros r tr tr2 tr3 p r'. split.
  - apply Close_nil_handle, Close_closes.
  - apply Write_nil_handle, Close_closes.
Qed.

(** C4: the first [Close] of an active resampler runs [flush], then
    [soxr_delete] on the handle, clears the handle whatever [flush]
    returned, and returns [flush]'s error; a later [Close] deletes nothing. *)
Theorem Close_flush_then_delete :
  forall r h tr,
    resampler r = Some h ->
    fst (fst (Close po wo r tr)) = set_resampler r None /\
    snd (fst (Close po wo r tr)) = fst (flush po wo r tr) /\
    (exists fl, snd (flush po wo r tr) = tr ++ fl /\ flush_events r fl /\
                snd (Close po wo r tr) = tr ++ fl ++ [EvDelete h]) /\
    (forall tr2, snd (Close po wo (fst (fst (Close po wo r tr))) tr2) = tr2).
Proof.
  intros r h tr E.
  assert (Hc : Close po wo r tr
               = ((set_resampler r None, fst (flush po wo r tr)),
                  snd (flush po wo r tr) ++ [EvDelete h])).
  { unfold Close, bind, ret, soxr_delete, emit. rewrite E.
    destruct (flush po wo r tr); reflexivity. }
  rewrite Hc. cbn [fst snd]. split; [reflexivity|]. split; [reflexivity|]. split.
  - destruct (flush_spec r tr) as [fl [Hf Hfe]]. exists fl.
    rewrite Hf, <- app_assoc. auto.
  - intro tr2. rewrite Close_nil_handle; reflexivity.
Qed.

(** C5: [Reset] fails on a closed resampler; on an active one it flushes to
    the old destination, clears the engine, installs the new destination,
    stays active and returns [flush]'s error; later writes go to the new
    destination only. *)
Theorem Reset_flush_then_swap :
  (forall r w tr, resampler r = None -> Reset po wo r w tr = ((r, nil_msg), tr)) /\
  (forall r h w tr,
     resampler r = Some h ->
     fst (fst (Reset po wo r w tr)) = set_destination r w /\
     resampler (fst (fst (Reset po wo r w tr))) = Some h /\
     snd (fst (Reset po wo r w tr)) = fst (flush po wo r tr) /\
     (exists fl, flush_events r fl /\
                 snd (Reset po wo r w tr) = tr ++ fl ++ [EvClear h]) /\
     (forall p tr2, exists l,
        snd (Write po wo (fst (fst (Reset po wo r w tr))) p tr2) = tr2 ++ l /\
        writes_to w l)).
Proof.
  split.
  - intros r w tr E. unfold Reset. now rewrite E.
  - intros r h w tr E.
    assert (Hr : Reset po wo r w tr
                 = ((set_destination r w, fst (flush po wo r tr)),
                    snd (flush po wo r tr) ++ [EvClear h])).
    { unfold Reset, bind, ret, soxr_clear, emit. rewrite E.
      destruct (flush po wo r tr); reflexivity. }
    rewrite Hr. cbn [fst snd]. split; [reflexivity|]. split; [exact E|].
    split; [reflexivity|]. split.
    + destruct (flush_spec r tr) as [fl [Hf Hfe]]. exists fl.
      rewrite Hf, <- app_assoc. auto.
    + intros p tr2. clear Hr. unfold writes_to. run. simpl. rewrite E.
      destruct (Z.of_nat (List.length p) =? 0); simpl.
      { exists []. rewrite app_nil_r. split; [reflexivity|intros ? ? []]. }
      destruct (frames_in _ _ =? 0); simpl.
      { exists []. rewrite app_nil_r. split; [reflexivity|intros ? ? []]. }
      destruct (frames_out _ _ =? 0); simpl.
      { exists []. rewrite app_nil_r. split; [reflexivity|intros ? ? []]. }
      destruct (po _) as [s d]. destruct (soxr_failed s); simpl.
      * eexists. split; [reflexivity|].
        intros w' n [H|[]]. discriminate.
      * destruct (wo _); simpl; (eexists; split; [rewrite <- app_assoc; reflexivity|]);
          intros w' n [H|[H|[]]]; try discriminate; injection H; auto.
Qed.

(** C9: on an active resampler a zero-length [Write] succeeds with 0 bytes
    consumed and leaves the trace untouched (no engine call). *)
Theorem Write_empty_active :
  forall r h tr, resampler r = Some h -> Write po wo r [] tr = ((0, None), tr).
Proof. intros r h tr E. run. now rewrite E. Qed.

(** C10: the nil-handle check comes first: after [Close], even a
    zero-length [Write] fails with the misuse error, 0 consumed. *)
Theorem Write_empty_after_close :
  forall r tr tr2,
    Write po wo (fst (fst (Close po wo r tr))) [] tr2 = ((0, nil_msg), tr2).
Proof. intros r tr tr2. apply Write_nil_handle, Close_closes. Qed.

(** C1 (as the code does it): a non-empty [Write] fails with the
    incomplete-frame error, leaving everything untouched, exactly when it
    holds less than one whole frame ([inFrameSize * channels] bytes); a
    longer input is never given that error: it has at least one whole
    frame, and either its float64 output budget is 0 and [Write] fails with
    the "not enough input" error, with nothing touched, or the engine is
    offered the [floor(len / frame bytes)] whole frames. *)
Theorem Write_incomplete_frame :
  forall r h p tr,
    resampler r = Some h -> 0 < inFrameSize r -> 0 < channels r ->
    0 < Z.of_nat (List.length p) ->
    (Z.of_nat (List.length p) < inFrameSize r * channels r ->
     Write po wo r p tr
       = ((0, Some "incomplete input frame data"%string), tr)) /\
    (inFrameSize r * channels r <= Z.of_nat (List.length p) ->
     let fi := Z.of_nat (List.length p) / (inFrameSize r * channels r) in
     1 <= fi /\
     (frames_out r fi = 0 ->
      Write po wo r p tr
        = ((0, Some "not enough input to generate output"%string), tr)) /\
     (frames_out r fi <> 0 ->
      exists l, snd (Write po wo r p tr)
                = tr ++ EvProcess (Some h) (Z.of_nat (List.length p)) fi
                                  (frames_out r fi) :: l)).
Proof.
  intros r h p tr E Ha Hb Hn.
  rewrite <- (frames_in_floor r) by lia.
  assert (Hne : (Z.of_nat (List.length p) =? 0) = false) by (apply Z.eqb_neq; lia).
  split.
  - intro Hlt. run. rewrite E, Hne.
    rewrite (frames_in_floor r) by lia. rewrite Z.div_small by lia. reflexivity.
  - intros Hge fi. assert (Hfi : 1 <= fi).
    { unfold fi. rewrite (frames_in_floor r) by lia.
      apply Z.div_le_lower_bound; lia. }
    split; [exact Hfi|]. split.
    + intro Hfo. run. rewrite E, Hne.
      replace (frames_in r (Z.of_nat (List.length p)) =? 0) with false
        by (symmetry; apply Z.eqb_neq; unfold fi in Hfi; lia).
      fold fi. rewrite Hfo. reflexivity.
    + intro Hfo. run. rewrite E, Hne.
      replace (frames_in r (Z.of_nat (List.length p)) =? 0) with false
        by (symmetry; apply Z.eqb_neq; unfold fi in Hfi; lia).
      fold fi. apply Z.eqb_neq in Hfo. rewrite Hfo.
      destruct (po _) as [s d]. destruct (soxr_failed s); simpl.
      * exists []. reflexivity.
      * destruct (wo _); simpl; eexists; rewrite <- app_assoc; reflexivity.
Qed.

(** C6 (as the code does it): when the float64 budget
    [int(float64(framesIn) * (outRate / inRate))] is 0, [Write] fails with
    the "not enough input" error, 0 consumed, and calls no engine. *)
Theorem Write_no_output_budget :
  forall r h p tr,
    resampler r = Some h ->
    frames_in r (Z.of_nat (List.length p)) <> 0 ->
    frames_out r (frames_in r (Z.of_nat (List.length p))) = 0 ->
    Write po wo r p tr
      = ((0, Some "not enough input to generate output"%string), tr).
Proof.
  intros r h p tr E Hfi Hfo. run. rewrite E.
  assert (Hne : (Z.of_nat (List.length p) =? 0) = false).
  { apply Z.eqb_neq. intro H0. apply Hfi. rewrite H0. reflexivity. }
  rewrite Hne. apply Z.eqb_neq in Hfi. rewrite Hfi, Hfo. reflexivity.
Qed.

(** C7 (failing input): [New] only rejects [channels = 0]; with
    [channels = -1] and an otherwise valid configuration it goes on to call
    [soxr_create]. *)
Theorem New_negative_channels_reaches_engine :
  forall tr,
    snd (New threads co (Some 1) f16000 f8000 (-1) I16 I16 HighQ tr)
      = tr ++ [EvCreate f16000 f8000 (-1) I16 I16 HighQ threads].
Proof.
  intro tr. unfold New, soxr_create, bind, ret, call. simpl.
  destruct (co _) as [hnd err]. destruct (soxr_failed err); reflexivity.
Qed.

(** C8 (as the code does it): the quality check of [New] rejects exactly
    the values below 0 or above 6; every value 0..6 (3 and 5 included)
    passes it: with valid formats [soxr_create] is called with it, and
    with an unknown format the error is the format one. *)
Theorem New_quality_range :
  forall w ir or ch inF outF q tr,
    PrimFloat.leb ir 0 = false -> PrimFloat.leb or 0 = false -> ch <> 0 ->
    ((q < 0 \/ 6 < q) ->
     New threads co (Some w) ir or ch inF outF q tr
       = ((None, Some "invalid quality setting"%string), tr)) /\
    (0 <= q <= 6 -> 0 <= inF <= 3 -> 0 <= outF <= 3 ->
     snd (New threads co (Some w) ir or ch inF outF q tr)
       = tr ++ [EvCreate ir or ch inF outF q threads]) /\
    (0 <= q <= 6 -> (~ (0 <= inF <= 3) \/ ~ (0 <= outF <= 3)) ->
     New threads co (Some w) ir or ch inF outF q tr
       = ((None, Some "invalid format setting"%string), tr)).
Proof.
  intros w ir or ch inF outF q tr Hir Hor Hch.
  unfold New. rewrite Hir, Hor. simpl orb.
  apply Z.eqb_neq in Hch. rewrite Hch. split; [|split].
  - intro Hq. replace ((q <? 0) || (q >? 6)) with true; [reflexivity|].
    symmetry. apply orb_true_iff. destruct Hq; [left; lia|right; lia].
  - intros Hq Hi Ho. replace ((q <? 0) || (q >? 6)) with false
      by (symmetry; apply orb_false_iff; split; lia).
    destruct (sizeOf inF) as [si ei] eqn:Si.
    pose proof (sizeOf_ok inF Hi) as Ei. rewrite Si in Ei. simpl in Ei. subst ei.
    destruct (sizeOf outF) as [so eo] eqn:So.
    pose proof (sizeOf_ok outF Ho) as Eo. rewrite So in Eo. simpl in Eo. subst eo.
    unfold soxr_create, bind, ret, call. simpl.
    destruct (co _) as [hnd err]. destruct (soxr_failed err); reflexivity.
  - intros Hq Hf. replace ((q <? 0) || (q >? 6)) with false
      by (symmetry; apply orb_false_iff; split; lia).
    destruct (sizeOf inF) as [si ei] eqn:Si.
    destruct ei as [e1|].
    + apply (f_equal snd), sizeOf_msg in Si. now subst.
    + destruct Hf as [Hf|Hf]; [exfalso; apply Hf, sizeOf_err; now rewrite Si|].
      destruct (sizeOf outF) as [so eo] eqn:So.
      destruct eo as [e2|].
      * apply (f_equal snd), sizeOf_msg in So. now subst.
      * exfalso; apply Hf, sizeOf_err; now rewrite So.
Qed.

End Properties.

(** ** Further properties of the code *)

Section Extra.

Variable threads : Z.
Variable po : list event -> string * Z.
Variable wo : list event -> error.
Variable co : list event -> handle * string.

Ltac split_new :=
  repeat match goal with
  | |- context [if ?b then _ else _] => destruct b eqn:?
  | |- context [let (_, _) := ?x in _] => destruct x eqn:?
  | |- context [match ?x with Some _ => _ | None => _ end] => destruct x eqn:?
  end.

(** [New] returns a resampler with a nil error, or no resampler with a
    non-nil error: never both, never neither. *)
Theorem New_result_exclusive :
  forall w ir or ch inF outF q tr,
    let res := fst (New threads co w ir or ch inF outF q tr) in
    (fst res = None /\ snd res <> None) \/
    (exists r, fst res = Some r /\ snd res = None).
Proof.
  intros w ir or ch inF outF q tr res. subst res.
  unfold New, soxr_create, bind, ret, call. destruct w as [wr|]; simpl;
    [|left; split; [reflexivity|discriminate]].
  split_new; simpl;
    first [left; split; [reflexivity|discriminate]
          | right; eexists; split; reflexivity].
Qed.

(** [New] calls [soxr_create] (once) exactly when the writer is non-nil,
    neither rate is [<= 0] as a float64 (so a NaN rate passes), channels is
    not 0, quality is in 0..6 and both formats are known; otherwise it fails
    before touching the engine. *)
Theorem New_engine_call_iff :
  forall w ir or ch inF outF q tr,
    (new_admits w ir or ch inF outF q ->
     snd (New threads co w ir or ch inF outF q tr)
       = tr ++ [EvCreate ir or ch inF outF q threads]) /\
    (~ new_admits w ir or ch inF outF q ->
     snd (New threads co w ir or ch inF outF q tr) = tr).
Proof.
  intros w ir or ch inF outF q tr. split.
  - intros (Hw & Hir & Hor & Hch & Hq & Hi & Ho).
    destruct w as [wr|]; [|congruence].
    unfold New. rewrite Hir, Hor. simpl orb.
    apply Z.eqb_neq in Hch. rewrite Hch.
    replace ((q <? 0) || (q >? 6)) with false
      by (symmetry; apply orb_false_iff; split; lia).
    destruct (sizeOf inF) as [si ei] eqn:Si.
    pose proof (sizeOf_ok inF Hi) as Ei. rewrite Si in Ei. simpl in Ei. subst ei.
    destruct (sizeOf outF) as [so eo] eqn:So.
    pose proof (sizeOf_ok outF Ho) as Eo. rewrite So in Eo. simpl in Eo. subst eo.
    unfold soxr_create, bind, ret, call. simpl.
    destruct (co _) as [hnd err]. destruct (soxr_failed err); reflexivity.
  - intro Hn. destruct w as [wr|]; [|reflexivity].
    unfold New.
    destruct (PrimFloat.leb ir 0) eqn:Hir; [reflexivity|].
    destruct (PrimFloat.leb or 0) eqn:Hor; [reflexivity|]. simpl orb.
    destruct (ch =? 0) eqn:Hch; [reflexivity|].
    destruct ((q <? 0) || (q >? 6)) eqn:Hq; [reflexivity|].
    destruct (sizeOf inF) as [si ei] eqn:Si.
    destruct ei as [e1|]; [reflexivity|].
    destruct (sizeOf outF) as [so eo] eqn:So.
    destruct eo as [e2|]; [reflexivity|].
    exfalso. apply Hn. apply orb_false_iff in Hq as [Hq1 Hq2].
    apply Z.eqb_neq in Hch.
    repeat split; try assumption; try discriminate; try lia.
    + apply sizeOf_err. now rewrite Si.
    + apply sizeOf_err. now rewrite Si.
    + apply sizeOf_err. now rewrite So.
    + apply sizeOf_err. now rewrite So.
Qed.

(** A resampler returned by [New] holds the handle [soxr_create] returned
    (with an error string that is "" or "0"), the given rates and channel
    count, the per-sample byte sizes of the two formats (8 for F64, 4 for
    F32 and I32, 2 for I16) and the given writer. *)
Theorem New_success_fields :
  forall w ir or ch inF outF q tr r,
    fst (fst (New threads co w ir or ch inF outF q tr)) = Some r ->
    let tr' := tr ++ [EvCreate ir or ch inF outF q threads] in
    snd (New threads co w ir or ch inF outF q tr) = tr' /\
    soxr_failed (snd (co tr')) = false /\
    r = mkResampler (Some (fst (co tr'))) ir or ch (fst (sizeOf inF))
                    (fst (sizeOf outF)) (destination r) /\
    w = Some (destination r).
Proof.
  intros w ir or ch inF outF q tr r Hr tr'. subst tr'. revert Hr.
  unfold New, soxr_create, bind, ret, call. destruct w as [wr|]; simpl;
    [|discriminate].
  split_new; simpl; try discriminate.
  intro Hr. injection Hr as <-. simpl. auto.
Qed.

(** With an otherwise valid configuration, an unknown input format and an
    unknown output format give the same error, before any engine call. *)
Theorem New_format_error :
  forall wr ir or ch inF outF q tr,
    PrimFloat.leb ir 0 = false -> PrimFloat.leb or 0 = false -> ch <> 0 ->
    0 <= q <= 6 -> (~ (0 <= inF <= 3) \/ ~ (0 <= outF <= 3)) ->
    New threads co (Some wr) ir or ch inF outF q tr
      = ((None, Some "invalid format setting"%string), tr).
Proof.
  intros wr ir or ch inF outF q tr Hir Hor Hch Hq Hf.
  unfold New. rewrite Hir, Hor. simpl orb.
  apply Z.eqb_neq in Hch. rewrite Hch.
  replace ((q <? 0) || (q >? 6)) with false
    by (symmetry; apply orb_false_iff; split; lia).
  destruct (sizeOf inF) as [si ei] eqn:Si.
  destruct ei as [e1|].
  - apply (f_equal snd), sizeOf_msg in Si. now subst.
  - destruct Hf as [Hf|Hf]; [exfalso; apply Hf, sizeOf_err; now rewrite Si|].
    destruct (sizeOf outF) as [so eo] eqn:So.
    destruct eo as [e2|].
    + apply (f_equal snd), sizeOf_msg in So. now subst.
    + exfalso; apply Hf, sizeOf_err; now rewrite So.
Qed.

Ltac run_ops_unfold :=
  unfold Write, Close, Reset, flush, soxr_process, dest_write, soxr_clear,
    soxr_delete, bind, ret, call, emit in *;
  cbv beta iota zeta in *.

(** [Write] past its input checks: one [soxr_process] call on the whole
    input; if the engine reports an error ([soxErr] neither "" nor "0")
    the call returns it with 0 consumed and writes nothing; otherwise, when
    the [C.int] byte count [write_count r done] is not negative (so that
    [C.GoBytes] does not panic), exactly that many bytes go to the
    destination. *)
Theorem Write_engine_result :
  forall r h p tr s d,
    resampler r = Some h ->
    0 < Z.of_nat (List.length p) ->
    frames_in r (Z.of_nat (List.length p)) <> 0 ->
    frames_out r (frames_in r (Z.of_nat (List.length p))) <> 0 ->
    let ev := EvProcess (Some h) (Z.of_nat (List.length p))
                (frames_in r (Z.of_nat (List.length p)))
                (frames_out r (frames_in r (Z.of_nat (List.length p)))) in
    po (tr ++ [ev]) = (s, d) ->
    (soxr_failed s = true -> Write po wo r p tr = ((0, Some s), tr ++ [ev])) /\
    (soxr_failed s = false -> 0 <= write_count r d ->
     snd (Write po wo r p tr)
       = tr ++ [ev; EvWrite (destination r) (write_count r d)]).
Proof.
  intros r h p tr s d E Hn Hfi Hfo ev Hpo. subst ev. run_ops_unfold. rewrite E.
  replace (Z.of_nat (List.length p) =? 0) with false by (symmetry; apply Z.eqb_neq; lia).
  apply Z.eqb_neq in Hfi, Hfo. rewrite Hfi, Hfo, Hpo. split; intro Hs; rewrite Hs.
  - reflexivity.
  - intros _. simpl. destruct (wo _); simpl; rewrite <- app_assoc; reflexivity.
Qed.

(** [Close] of an active resampler when the final [soxr_process] fails:
    nothing is written, the handle is still deleted, and the engine's error
    is returned; when it succeeds and the [C.int] byte count
    [write_count r done] is not negative (so that [C.GoBytes] does not
    panic), that many bytes (possibly none) are written, then the handle is
    deleted, and the writer's error is returned. *)
Theorem Close_flush_outcome :
  forall r h tr s d,
    resampler r = Some h ->
    po (tr ++ [EvProcess (Some h) 0 0 flush_frames]) = (s, d) ->
    (soxr_failed s = true ->
     Close po wo r tr = ((set_resampler r None, Some s),
                         tr ++ [EvProcess (Some h) 0 0 flush_frames; EvDelete h])) /\
    (soxr_failed s = false -> 0 <= write_count r d ->
     let evs := [EvProcess (Some h) 0 0 flush_frames;
                 EvWrite (destination r) (write_count r d)] in
     Close po wo r tr = ((set_resampler r None, wo (tr ++ evs)),
                         tr ++ evs ++ [EvDelete h])).
Proof.
  intros r h tr s d E Hpo. run_ops_unfold. rewrite E. rewrite Hpo.
  split; intro Hs; rewrite Hs.
  - rewrite <- app_assoc. reflexivity.
  - intros _. simpl. rewrite <- !app_assoc. reflexivity.
Qed.






Lemma Write_events r h p tr :
  resampler r = Some h ->
  exists pre, snd (Write po wo r p tr) = tr ++ pre /\ Forall (on_handle h) pre.
Proof.
  intro E. run_ops_unfold. rewrite E.
  destruct (Z.of_nat (List.length p) =? 0); simpl;
    [exists []; rewrite app_nil_r; auto|].
  destruct (frames_in r _ =? 0); simpl; [exists []; rewrite app_nil_r; auto|].
  destruct (frames_out r _ =? 0); simpl; [exists []; rewrite app_nil_r; auto|].
  destruct (po _) as [s d]. destruct (soxr_failed s); simpl.
  - eexists; split; [reflexivity|]. repeat constructor.
  - destruct (wo _); simpl; (eexists; split; [rewrite <- app_assoc; reflexivity|]);
      repeat constructor.
Qed.

Lemma flush_events_on r h fl :
  resampler r = Some h -> flush_events r fl -> Forall (on_handle h) fl.
Proof.
  intros E [->|[n ->]]; rewrite E; repeat constructor.
Qed.

Lemma step_closed r o tr : resampler r = None -> step po wo r o tr = (r, tr).
Proof.
  intro E. destruct o; unfold step, bind, ret; simpl.
  - rewrite Write_nil_handle by exact E. reflexivity.
  - unfold Reset. rewrite E. reflexivity.
  - rewrite Close_nil_handle by exact E. reflexivity.
Qed.

Lemma run_ops_closed r ops tr : resampler r = None -> run_ops po wo r ops tr = (r, tr).
Proof.
  revert tr. induction ops as [|o os IH]; intros tr E; [reflexivity|].
  simpl. unfold bind. rewrite step_closed by exact E. apply IH, E.
Qed.

Lemma step_active r h o tr :
  resampler r = Some h ->
  exists pre, Forall (on_handle h) pre /\
    ((snd (step po wo r o tr) = tr ++ pre /\ resampler (fst (step po wo r o tr)) = Some h) \/
     (snd (step po wo r o tr) = tr ++ pre ++ [EvDelete h] /\
      resampler (fst (step po wo r o tr)) = None)).
Proof.
  intro E. destruct o as [p|w|]; unfold step, bind, ret.
  - destruct (Write_events r h p tr E) as [pre [Hp Hf]].
    destruct (Write po wo r p tr) as [res tr1]. simpl in *.
    exists pre. split; [exact Hf|left; auto].
  - destruct (flush_spec po wo r tr) as [fl [Hf Hfe]].
    assert (Hr : Reset po wo r w tr
                 = ((set_destination r w, fst (flush po wo r tr)),
                    snd (flush po wo r tr) ++ [EvClear h])).
    { unfold Reset, bind, ret, soxr_clear, emit. rewrite E.
      destruct (flush po wo r tr); reflexivity. }
    rewrite Hr. simpl. exists (fl ++ [EvClear h]). split.
    + apply Forall_app. split; [eapply flush_events_on; eauto|repeat constructor].
    + left. rewrite Hf, <- app_assoc. split; [reflexivity|exact E].
  - destruct (flush_spec po wo r tr) as [fl [Hf Hfe]].
    assert (Hc : Close po wo r tr
                 = ((set_resampler r None, fst (flush po wo r tr)),
                    snd (flush po wo r tr) ++ [EvDelete h])).
    { unfold Close, bind, ret, soxr_delete, emit. rewrite E.
      destruct (flush po wo r tr); reflexivity. }
    rewrite Hc. simpl. exists fl. split; [eapply flush_events_on; eauto|].
    right. rewrite Hf, <- app_assoc. split; reflexivity.
Qed.

(** Over any sequence of [Write], [Reset] and [Close] calls on a resampler
    made with handle [h], the engine sees only calls on [h], the handle is
    deleted at most once, and the deletion is the last event: after it no
    call reaches the engine or the destination again. *)
Theorem run_ops_handle_lifecycle :
  forall ops r h tr,
    resampler r = Some h ->
    exists pre, Forall (on_handle h) pre /\
      (snd (run_ops po wo r ops tr) = tr ++ pre \/
       (snd (run_ops po wo r ops tr) = tr ++ pre ++ [EvDelete h] /\
        resampler (fst (run_ops po wo r ops tr)) = None)).
Proof.
  induction ops as [|o os IH]; intros r h tr E.
  - exists []. split; [constructor|left; simpl; now rewrite app_nil_r].
  - simpl. unfold bind.
    destruct (step_active r h o tr E) as [pre1 [Hf1 [[Ht Hr]|[Ht Hr]]]];
      destruct (step po wo r o tr) as [r1 tr1]; simpl in Ht, Hr; subst tr1.
    + destruct (IH r1 h (tr ++ pre1) Hr) as [pre2 [Hf2 H2]].
      exists (pre1 ++ pre2). split; [apply Forall_app; auto|].
      cbv beta iota. rewrite <- !app_assoc in H2. rewrite <- (app_assoc pre1).
      exact H2.
    + rewrite run_ops_closed by exact Hr. simpl.
      exists pre1. split; [exact Hf1|right; auto].
Qed.

Lemma Copy_events r h reads :
  resampler r = Some h ->
  forall w tr, exists pre,
    snd (Copy po wo r reads w tr) = tr ++ pre /\ Forall (on_handle h) pre.
Proof.
  intro E. induction reads as [|[buf er] rest IH]; intros w tr.
  - exists []. simpl. rewrite app_nil_r. auto.
  - assert (Hk : forall w' tr', exists pre,
               snd (after_read er (Copy po wo r rest) w' tr') = tr' ++ pre /\
               Forall (on_handle h) pre).
    { intros w' tr'. destruct er as [[|e]|]; simpl;
        [exists []; rewrite app_nil_r; auto|exists []; rewrite app_nil_r; auto|apply IH]. }
    simpl Copy. destruct (0 <? _); [|apply Hk].
    unfold bind at 1. destruct (Write_events r h buf tr E) as [pre1 [Hp Hf]].
    destruct (Write po wo r buf tr) as [[nw ew] tr1]. simpl in Hp. subst tr1.
    cbv beta iota zeta.
    repeat match goal with
           | |- context [if ?b then _ else _] => destruct b
           | |- context [match ?x with Some _ => _ | None => _ end] => destruct x
           end; unfold ret;
    first [ exists pre1; split; [reflexivity|exact Hf]
          | match goal with
            | |- context [after_read er _ ?w0 ?t0] =>
                destruct (Hk w0 t0) as [pre2 [H2 F2]]; exists (pre1 ++ pre2);
                split; [rewrite H2, app_assoc; reflexivity|apply Forall_app; auto]
            end ].
Qed.

(** main's [io.Copy(res, input)] then [res.Close()]: whatever the copy does
    (including failing on a chunk), the handle is deleted exactly once, as
    the last event, every engine call before it is on the same handle, and
    the outcome main acts on is the copy's error, not [Close]'s. *)
Theorem copy_then_close_releases :
  forall r h reads tr,
    resampler r = Some h ->
    exists pre, Forall (on_handle h) pre /\
      snd (copy_then_close po wo r reads tr) = tr ++ pre ++ [EvDelete h] /\
      fst (copy_then_close po wo r reads tr) = snd (fst (Copy po wo r reads 0 tr)).
Proof.
  intros r h reads tr E. unfold copy_then_close, bind, ret.
  destruct (Copy_events r h reads E 0 tr) as [pre1 [H1 F1]].
  destruct (Copy po wo r reads 0 tr) as [[wr err] tr1]. simpl in H1. subst tr1.
  destruct (flush_spec po wo r (tr ++ pre1)) as [fl [Hf Hfe]].
  assert (Hc : Close po wo r (tr ++ pre1)
               = ((set_resampler r None, fst (flush po wo r (tr ++ pre1))),
                  snd (flush po wo r (tr ++ pre1)) ++ [EvDelete h])).
  { unfold Close, bind, ret, soxr_delete, emit. rewrite E.
    destruct (flush po wo r (tr ++ pre1)); reflexivity. }
  rewrite Hc. simpl. exists (pre1 ++ fl). split.
  - apply Forall_app. split; [exact F1|eapply flush_events_on; eauto].
  - rewrite Hf, <- !app_assoc. split; reflexivity.
Qed.

Lemma Write_ok r h p tr :
  resampler r = Some h ->
  (forall t, soxr_failed (fst (po t)) = false) -> (forall t, wo t = None) ->
  0 < Z.of_nat (List.length p) ->
  frames_in r (Z.of_nat (List.length p)) <> 0 ->
  frames_out r (frames_in r (Z.of_nat (List.length p))) <> 0 ->
  fst (Write po wo r p tr) = (Z.of_nat (List.length p), None).
Proof.
  intros E Hpo Hwo Hn Hfi Hfo. run_ops_unfold. rewrite E.
  replace (Z.of_nat (List.length p) =? 0) with false by (symmetry; apply Z.eqb_neq; lia).
  apply Z.eqb_neq in Hfi, Hfo. rewrite Hfi, Hfo.
  destruct (po _) as [s d] eqn:Hp.
  match type of Hp with po ?t = _ => pose proof (Hpo t) as Hs end.
  rewrite Hp in Hs. simpl in Hs. rewrite Hs. simpl. rewrite Hwo. reflexivity.
Qed.

Lemma Write_short r h p tr :
  resampler r = Some h -> 0 < Z.of_nat (List.length p) ->
  frames_in r (Z.of_nat (List.length p)) = 0 ->
  Write po wo r p tr = ((0, Some "incomplete input frame data"%string), tr).
Proof.
  intros E Hn Hfi. run_ops_unfold. rewrite E.
  replace (Z.of_nat (List.length p) =? 0) with false by (symmetry; apply Z.eqb_neq; lia).
  rewrite Hfi. reflexivity.
Qed.

Lemma Copy_cons_ok r buf er rest w tr tr1 :
  0 < Z.of_nat (List.length buf) ->
  Write po wo r buf tr = ((Z.of_nat (List.length buf), None), tr1) ->
  Copy po wo r ((buf, er) :: rest) w tr
    = after_read er (Copy po wo r rest) (w + Z.of_nat (List.length buf)) tr1.
Proof.
  intros Hn HW. simpl Copy. apply Z.ltb_lt in Hn. rewrite Hn.
  unfold bind at 1. rewrite HW. cbv beta iota zeta.
  replace ((Z.of_nat (List.length buf) <? 0) || (Z.of_nat (List.length buf) <? Z.of_nat (List.length buf)))
    with false by (symmetry; apply orb_false_iff; split; apply Z.ltb_ge; lia).
  rewrite Z.eqb_refl. reflexivity.
Qed.

Lemma Copy_eof r w tr : Copy po wo r [([], Some EOF)] w tr = ((w, None), tr).
Proof. reflexivity. Qed.

Lemma Copy_cons_short r h buf er rest w tr :
  resampler r = Some h -> 0 < Z.of_nat (List.length buf) ->
  frames_in r (Z.of_nat (List.length buf)) = 0 ->
  Copy po wo r ((buf, er) :: rest) w tr
    = ((w, Some "incomplete input frame data"%string), tr).
Proof.
  intros E Hn Hfi. simpl Copy. pose proof Hn as Hn'. apply Z.ltb_lt in Hn. rewrite Hn.
  unfold bind at 1. rewrite (Write_short r h) by assumption.
  cbv beta iota zeta.
  replace ((0 <? 0) || (Z.of_nat (List.length buf) <? 0)) with false
    by (symmetry; apply orb_false_iff; split; apply Z.ltb_ge; lia).
  unfold ret. now rewrite Z.add_0_r.
Qed.

Lemma copy_buf_Z : Z.of_nat copy_buf = 32768.
Proof. unfold copy_buf. rewrite Nat2Z.inj_mul. reflexivity. Qed.

Lemma length_bytes n : Z.of_nat (List.length (bytes n)) = Z.of_nat n.
Proof. unfold bytes. now rewrite repeat_length. Qed.

Lemma Copy_full_chunks r rest :
  (forall t, fst (Write po wo r (bytes copy_buf) t) = (Z.of_nat copy_buf, None)) ->
  forall k w tr, exists tr',
    Copy po wo r (repeat (bytes copy_buf, None) k ++ rest) w tr
    = Copy po wo r rest (w + Z.of_nat k * Z.of_nat copy_buf) tr'.
Proof.
  intro Hfull. induction k as [|k IH]; intros w tr.
  - exists tr. cbn [repeat app]. now rewrite Z.mul_0_l, Z.add_0_r.
  - cbn [repeat app].
    destruct (Write po wo r (bytes copy_buf) tr) as [res tr1] eqn:HW.
    pose proof (Hfull tr) as Hr. rewrite HW in Hr. cbn [fst] in Hr. subst res.
    rewrite <- (length_bytes copy_buf) in HW.
    rewrite (Copy_cons_ok r _ None _ w tr tr1);
      [|rewrite length_bytes, copy_buf_Z; lia|exact HW].
    cbn [after_read]. destruct (IH (w + Z.of_nat (List.length (bytes copy_buf))) tr1) as [tr' H'].
    exists tr'. rewrite H', length_bytes. f_equal. lia.
Qed.

(** main's [io.Copy] of a regular file of [n] bytes into an active
    resampler whose frame size [B] divides the 32 KiB copy buffer, with an
    engine and a writer that never fail and a non-zero budget for a full
    buffer: if the last chunk [n mod 32768] holds less than one frame the
    copy fails with "incomplete input frame data" after [n - n mod 32768]
    bytes; if it is empty, or holds at least one frame with a non-zero
    budget, the copy succeeds with all [n] bytes written. *)
Theorem Copy_file_frames :
  forall r h n tr,
    resampler r = Some h -> 0 < inFrameSize r -> 0 < channels r ->
    Z.of_nat copy_buf mod (inFrameSize r * channels r) = 0 ->
    frames_out r (Z.of_nat copy_buf / (inFrameSize r * channels r)) <> 0 ->
    (forall t, soxr_failed (fst (po t)) = false) -> (forall t, wo t = None) ->
    (0 < Z.of_nat ((n mod copy_buf)%nat) < inFrameSize r * channels r ->
     fst (Copy po wo r (file_reads n) 0 tr)
       = (Z.of_nat n - Z.of_nat ((n mod copy_buf)%nat),
          Some "incomplete input frame data"%string)) /\
    ((((n mod copy_buf)%nat = 0)%nat \/
      (inFrameSize r * channels r <= Z.of_nat ((n mod copy_buf)%nat) /\
       frames_out r (Z.of_nat ((n mod copy_buf)%nat) / (inFrameSize r * channels r)) <> 0)) ->
     fst (Copy po wo r (file_reads n) 0 tr) = (Z.of_nat n, None)).
Proof.
  intros r h n tr E Ha Hb Hdiv Hfo Hpo Hwo.
  assert (HB : 0 < inFrameSize r * channels r) by lia.
  assert (Hq : Z.of_nat copy_buf / (inFrameSize r * channels r) <> 0).
  { intro H0. pose proof (Z.div_mod (Z.of_nat copy_buf) (inFrameSize r * channels r)) as Hd.
    rewrite H0, Hdiv, copy_buf_Z in Hd. lia. }
  assert (Hfull : forall t, fst (Write po wo r (bytes copy_buf) t) = (Z.of_nat copy_buf, None)).
  { intro t. rewrite <- (length_bytes copy_buf).
    apply (Write_ok r h); auto.
    - rewrite length_bytes, copy_buf_Z. lia.
    - rewrite length_bytes, (frames_in_floor r) by lia. exact Hq.
    - rewrite length_bytes, (frames_in_floor r) by lia. exact Hfo. }
  pose proof (Nat.div_mod_eq n copy_buf) as Hnm.
  assert (Hn : Z.of_nat n = Z.of_nat ((n / copy_buf)%nat) * Z.of_nat copy_buf + Z.of_nat ((n mod copy_buf)%nat)).
  { rewrite Hnm at 1. rewrite Nat2Z.inj_add, Nat2Z.inj_mul. lia. }
  unfold file_reads.
  destruct (Copy_full_chunks r
              ((if Nat.eqb ((n mod copy_buf)%nat) 0 then [] else [(bytes ((n mod copy_buf)%nat), None)])
               ++ [([], Some EOF)]) Hfull ((n / copy_buf)%nat) 0 tr) as [tr' ->].
  set (m := (n mod copy_buf)%nat) in *. set (k := (n / copy_buf)%nat) in *.
  clearbody m k. clear Hnm.
  remember (0 + Z.of_nat k * Z.of_nat copy_buf) as w0 eqn:Hw0.
  split.
  - intros [Hm1 Hm2].
    replace (Nat.eqb m 0) with false by (symmetry; apply Nat.eqb_neq; lia).
    cbn [app]. rewrite (Copy_cons_short r h).
    + cbn [fst]. f_equal. lia.
    + exact E.
    + rewrite length_bytes. lia.
    + rewrite length_bytes, (frames_in_floor r) by lia. apply Z.div_small. lia.
  - intros [Hm|[Hm1 Hm2]].
    + rewrite Hm. cbn [Nat.eqb app]. rewrite Copy_eof. cbn [fst]. f_equal. lia.
    + replace (Nat.eqb m 0) with false
        by (symmetry; apply Nat.eqb_neq; intro H0; rewrite H0 in Hm1; lia).
      cbn [app].
      destruct (Write po wo r (bytes m) tr') as [res tr1] eqn:HW.
      assert (Hres : res = (Z.of_nat (List.length (bytes m)), None)).
      { replace res with (fst (Write po wo r (bytes m) tr')) by (now rewrite HW).
        apply (Write_ok r h); auto; rewrite length_bytes.
        - lia.
        - rewrite (frames_in_floor r) by lia.
          pose proof (Z.div_le_lower_bound (Z.of_nat m) (inFrameSize r * channels r) 1).
          lia.
        - rewrite (frames_in_floor r) by lia. exact Hm2. }
      subst res. rewrite (Copy_cons_ok r _ None _ _ tr' tr1);
        [|rewrite length_bytes; lia|exact HW].
      cbn [after_read]. rewrite Copy_eof. cbn [fst]. f_equal. rewrite length_bytes. lia.
Qed.

End Extra.

Lemma lower_preimage_spec c d :
  ascii_lower c = d -> In c (lower_preimage d).
Proof.
  intro H. unfold lower_preimage. apply filter_In. split.
  - unfold all_ascii. rewrite <- (Ascii.ascii_nat_embedding c).
    apply in_map, in_seq. pose proof (Ascii.nat_ascii_bounded c). lia.
  - destruct (Ascii.ascii_dec (ascii_lower c) d); congruence.
Qed.

Lemma lower_string_preimages s t :
  lower_string s = t -> In s (string_preimages t).
Proof.
  revert t. induction s as [|c s IH]; intros t H; destruct t as [|d t];
    simpl in H; try discriminate.
  - left. reflexivity.
  - injection H as H1 H2. simpl. apply in_flat_map. exists c. split.
    + apply lower_preimage_spec, H1.
    + apply in_map, IH, H2.
Qed.

(** [strToFormat] (cmd): on an ASCII string it accepts exactly the eight
    spellings i16, I16, i32, I32, f32, F32, f64, F64, each giving its
    format; any other ASCII string is answered with the error "unknown
    format <s>" quoting the string as given. *)
Theorem strToFormat_names :
  forall s, is_ascii s = true ->
    (forall f, strToFormat s = Some (f, None) <-> In (s, f) format_names) /\
    ((forall f, ~ In (s, f) format_names) ->
     strToFormat s = Some (0, Some ("unknown format " ++ s)%string)).
Proof.
  intros s Hs.
  assert (Hcases : forall t, In t [("i16", I16); ("i32", I32); ("f32", F32); ("f64", F64)]%string ->
                   lower_string s = fst t -> In (s, snd t) format_names).
  { intros t Ht Hl. apply lower_string_preimages in Hl.
    destruct Ht as [<-|[<-|[<-|[<-|[]]]]]; vm_compute in Hl;
      repeat (destruct Hl as [<-|Hl]; [vm_compute; tauto|]); destruct Hl. }
  unfold strToFormat, ToLower. rewrite Hs. split.
  - intro f. split.
    + destruct (String.eqb (lower_string s) "i16") eqn:E1;
        [apply String.eqb_eq in E1; intro H; injection H as <-;
         exact (Hcases ("i16", I16)%string ltac:(simpl; tauto) E1)|].
      destruct (String.eqb (lower_string s) "i32") eqn:E2;
        [apply String.eqb_eq in E2; intro H; injection H as <-;
         exact (Hcases ("i32", I32)%string ltac:(simpl; tauto) E2)|].
      destruct (String.eqb (lower_string s) "f32") eqn:E3;
        [apply String.eqb_eq in E3; intro H; injection H as <-;
         exact (Hcases ("f32", F32)%string ltac:(simpl; tauto) E3)|].
      destruct (String.eqb (lower_string s) "f64") eqn:E4;
        [apply String.eqb_eq in E4; intro H; injection H as <-;
         exact (Hcases ("f64", F64)%string ltac:(simpl; tauto) E4)|].
      discriminate.
    + intro H. repeat (destruct H as [H|H]; [injection H as <- <-; reflexivity|]).
      destruct H.
  - intro Hno.
    destruct (String.eqb (lower_string s) "i16") eqn:E1;
      [apply String.eqb_eq in E1; exfalso;
       exact (Hno _ (Hcases ("i16", I16)%string ltac:(simpl; tauto) E1))|].
    destruct (String.eqb (lower_string s) "i32") eqn:E2;
      [apply String.eqb_eq in E2; exfalso;
       exact (Hno _ (Hcases ("i32", I32)%string ltac:(simpl; tauto) E2))|].
    destruct (String.eqb (lower_string s) "f32") eqn:E3;
      [apply String.eqb_eq in E3; exfalso;
       exact (Hno _ (Hcases ("f32", F32)%string ltac:(simpl; tauto) E3))|].
    destruct (String.eqb (lower_string s) "f64") eqn:E4;
      [apply String.eqb_eq in E4; exfalso;
       exact (Hno _ (Hcases ("f64", F64)%string ltac:(simpl; tauto) E4))|].
    reflexivity.
Qed.

(** ** Evaluations at concrete inputs *)

(** C1, counterexample: a 5-byte write to a mono F32 resampler (4-byte
    frames) is not rejected: one frame goes to the engine, and the call
    reports all 5 bytes consumed. *)
Lemma Write_partial_frame_counterexample :
  Z.of_nat (List.length (bytes 5)) mod (4 * 1) <> 0 /\
  Write (demo_process 1) demo_write_ok (mono_f32 one_f one_f) (bytes 5) []
  = ((5, None), [EvProcess (Some 7) 5 1 1; EvWrite 1 4]).
Proof. split; [discriminate|reflexivity]. Qed.

Lemma Write_incomplete_frame_witness :
  Write (demo_process 1) demo_write_ok (mono_f32 one_f one_f) (bytes 3) []
  = ((0, Some "incomplete input frame data"%string), []) /\
  Write (demo_process 1) demo_write_ok stereo_i16 (bytes 7) []
  = ((0, Some "not enough input to generate output"%string), []).
Proof.
  split.
  - apply (proj1 (Write_incomplete_frame (demo_process 1) demo_write_ok
                    (mono_f32 one_f one_f) 7 (bytes 3) [] eq_refl
                    ltac:(reflexivity) ltac:(reflexivity) ltac:(reflexivity))).
    reflexivity.
  - apply (proj1 (proj2 (proj2 (Write_incomplete_frame (demo_process 1) demo_write_ok
                    stereo_i16 7 (bytes 7) [] eq_refl
                    ltac:(reflexivity) ltac:(reflexivity) ltac:(reflexivity))
                    ltac:(vm_compute; discriminate)))).
    vm_compute. reflexivity.
Defined.

Lemma Write_all_or_nothing_witness :
  fst (Write (demo_process 1) demo_write_fail (mono_f32 one_f one_f) (bytes 4) [])
  = (0, Some "short write"%string).
Proof.
  apply (proj2 (Write_all_or_nothing (demo_process 1) demo_write_fail)
           (mono_f32 one_f one_f) (bytes 4) [] 7 1 1 4); reflexivity.
Defined.

Lemma Close_flush_then_delete_witness :
  fst (fst (Close (demo_process 3) demo_write_ok (mono_f32 one_f one_f) []))
  = mkResampler None one_f one_f 1 4 4 1.
Proof.
  apply (Close_flush_then_delete (demo_process 3) demo_write_ok
           (mono_f32 one_f one_f) 7 [] eq_refl).
Defined.

Lemma Reset_flush_then_swap_witness :
  fst (fst (Reset (demo_process 3) demo_write_ok (mono_f32 one_f one_f) 2 []))
  = mkResampler (Some 7) one_f one_f 1 4 4 2.
Proof.
  apply (proj2 (Reset_flush_then_swap (demo_process 3) demo_write_ok)
           (mono_f32 one_f one_f) 7 2 [] eq_refl).
Defined.

Lemma Write_empty_active_witness :
  Write (demo_process 1) demo_write_ok (mono_f32 one_f one_f) [] [EvWrite 1 0]
  = ((0, None), [EvWrite 1 0]).
Proof.
  apply (Write_empty_active (demo_process 1) demo_write_ok
           (mono_f32 one_f one_f) 7); reflexivity.
Defined.

(** C6, counterexample: with inRate 1.0 and outRate the float64 nearest
    1/3 (slightly below 1/3), three frames give an exact budget of 0, but
    the float64 product rounds to 1.0: the engine is called. *)
Lemma Write_budget_rounding_counterexample :
  frames_in (mono_f32 one_f third_f) 12 = 3 /\
  spec_frames_out (mono_f32 one_f third_f) 3 = 0 /\
  Write (demo_process 1) demo_write_ok (mono_f32 one_f third_f) (bytes 12) []
  = ((12, None), [EvProcess (Some 7) 12 3 1; EvWrite 1 4]).
Proof. split; [|split]; vm_compute; reflexivity. Qed.

(** The converse rounding: 49 frames at ratio 1/49 have exact budget 1, but
    the float64 budget is 0. *)
Example budget_49_rounds_down :
  spec_frames_out (mono_f32 f49 one_f) 49 = 1 /\
  frames_out (mono_f32 f49 one_f) 49 = 0.
Proof. split; vm_compute; reflexivity. Qed.

Lemma Write_no_output_budget_witness :
  Write (demo_process 1) demo_write_ok (mono_f32 f49 one_f) (bytes 196) []
  = ((0, Some "not enough input to generate output"%string), []).
Proof.
  apply (Write_no_output_budget (demo_process 1) demo_write_ok
           (mono_f32 f49 one_f) 7);
    vm_compute; first [reflexivity | intro H0; discriminate H0].
Defined.

(** C7: with an engine that accepts it, [channels = -1] even yields a
    resampler. *)
Example New_negative_channels_demo :
  fst (New 1 demo_create (Some 1) f16000 f8000 (-1) I16 I16 HighQ [])
  = (Some (mkResampler (Some 7) f16000 f8000 (-1) 2 2 1), None).
Proof. reflexivity. Qed.

(** C8, counterexample: quality 3 is not one of the five named levels,
    yet [New] accepts it and hands it to [soxr_create]. *)
Lemma New_quality_3_counterexample :
  ~ In 3 [Quick; LowQ; MediumQ; HighQ; VeryHighQ] /\
  New 1 demo_create (Some 1) f16000 f8000 1 I16 I16 3 []
  = ((Some (mkResampler (Some 7) f16000 f8000 1 2 2 1), None),
     [EvCreate f16000 f8000 1 I16 I16 3 1]).
Proof.
  split; [|reflexivity].
  unfold Quick, LowQ, MediumQ, HighQ, VeryHighQ. simpl. lia.
Qed.

Lemma New_quality_range_witness :
  New 1 demo_create (Some 1) f16000 f8000 1 I16 I16 7 []
  = ((None, Some "invalid quality setting"%string), []) /\
  New 1 demo_create (Some 1) f16000 f8000 1 9 I16 3 []
  = ((None, Some "invalid format setting"%string), []).
Proof.
  split.
  - apply (proj1 (New_quality_range 1 demo_create 1 f16000 f8000 1 I16 I16 7 []
                    eq_refl eq_refl ltac:(discriminate))).
    right; lia.
  - apply (proj2 (proj2 (New_quality_range 1 demo_create 1 f16000 f8000 1 9 I16 3 []
                           eq_refl eq_refl ltac:(discriminate)))).
    + lia.
    + left; lia.
Defined.

(** Evaluations of the further properties. *)

Lemma New_engine_call_iff_witness :
  snd (New 1 demo_create (Some 1) f16000 f8000 2 I16 F32 HighQ [])
    = [EvCreate f16000 f8000 2 I16 F32 HighQ 1] /\
  snd (New 1 demo_create (Some 1) f16000 f8000 0 I16 I16 HighQ []) = [].
Proof.
  split.
  - apply (proj1 (New_engine_call_iff 1 demo_create (Some 1) f16000 f8000 2 I16 F32 HighQ [])).
    unfold new_admits, HighQ, I16, F32.
    repeat split; first [reflexivity | discriminate | lia].
  - apply (proj2 (New_engine_call_iff 1 demo_create (Some 1) f16000 f8000 0 I16 I16 HighQ [])).
    intros (_ & _ & _ & H & _). apply H. reflexivity.
Defined.

Lemma New_success_fields_witness :
  fst (fst (New 1 demo_create (Some 1) f16000 f8000 2 I16 F32 HighQ []))
    = Some (mkResampler (Some 7) f16000 f8000 2 2 4 1) /\
  mkResampler (Some 7) f16000 f8000 2 2 4 1
    = mkResampler (Some 7) f16000 f8000 2 (fst (sizeOf I16)) (fst (sizeOf F32)) 1.
Proof.
  split; [reflexivity|].
  exact (proj1 (proj2 (proj2 (New_success_fields 1 demo_create (Some 1) f16000 f8000 2
                                I16 F32 HighQ [] (mkResampler (Some 7) f16000 f8000 2 2 4 1)
                                eq_refl)))).
Defined.

Lemma New_format_error_witness :
  New 1 demo_create (Some 1) f16000 f8000 1 9 I16 HighQ []
    = ((None, Some "invalid format setting"%string), []).
Proof.
  apply (New_format_error 1 demo_create 1 f16000 f8000 1 9 I16 HighQ []);
    [reflexivity | reflexivity | discriminate | unfold HighQ; lia | left; lia].
Defined.

Lemma Write_engine_result_witness :
  snd (Write (demo_process 1) demo_write_ok (mono_f32 one_f one_f) (bytes 4) [])
    = [EvProcess (Some 7) 4 1 1; EvWrite 1 4].
Proof.
  apply (proj2 (Write_engine_result (demo_process 1) demo_write_ok
                  (mono_f32 one_f one_f) 7 (bytes 4) [] ""%string 1 eq_refl
                  ltac:(vm_compute; reflexivity) ltac:(vm_compute; discriminate)
                  ltac:(vm_compute; discriminate) eq_refl) eq_refl
                  ltac:(vm_compute; discriminate)).
Defined.

Lemma Close_flush_outcome_witness :
  Close (demo_process 0) demo_write_ok (mono_f32 one_f one_f) []
    = ((mkResampler None one_f one_f 1 4 4 1, None),
       [EvProcess (Some 7) 0 0 flush_frames; EvWrite 1 0; EvDelete 7]).
Proof.
  apply (proj2 (Close_flush_outcome (demo_process 0) demo_write_ok
                  (mono_f32 one_f one_f) 7 [] ""%string 0 eq_refl eq_refl) eq_refl
                  ltac:(vm_compute; discriminate)).
Defined.


Lemma run_ops_handle_lifecycle_witness :
  exists pre, Forall (on_handle 7) pre /\
    (snd (run_ops (demo_process 1) demo_write_ok (mono_f32 one_f one_f)
            [OWrite (bytes 4); OReset 2; OClose; OWrite (bytes 4)] [])
       = [] ++ pre \/
     (snd (run_ops (demo_process 1) demo_write_ok (mono_f32 one_f one_f)
             [OWrite (bytes 4); OReset 2; OClose; OWrite (bytes 4)] [])
        = [] ++ pre ++ [EvDelete 7] /\
      resampler (fst (run_ops (demo_process 1) demo_write_ok (mono_f32 one_f one_f)
                        [OWrite (bytes 4); OReset 2; OClose; OWrite (bytes 4)] []))
        = None)).
Proof.
  exact (run_ops_handle_lifecycle (demo_process 1) demo_write_ok
           [OWrite (bytes 4); OReset 2; OClose; OWrite (bytes 4)]
           (mono_f32 one_f one_f) 7 [] eq_refl).
Defined.

Lemma copy_then_close_releases_witness :
  exists pre, Forall (on_handle 7) pre /\
    snd (copy_then_close (demo_process 1) demo_write_ok (mono_f32 one_f one_f)
           [(bytes 8, None); (bytes 3, None); ([], Some EOF)] [])
      = [] ++ pre ++ [EvDelete 7] /\
    fst (copy_then_close (demo_process 1) demo_write_ok (mono_f32 one_f one_f)
           [(bytes 8, None); (bytes 3, None); ([], Some EOF)] [])
      = snd (fst (Copy (demo_process 1) demo_write_ok (mono_f32 one_f one_f)
                   [(bytes 8, None); (bytes 3, None); ([], Some EOF)] 0 [])).
Proof.
  exact (copy_then_close_releases (demo_process 1) demo_write_ok (mono_f32 one_f one_f) 7
           [(bytes 8, None); (bytes 3, None); ([], Some EOF)] [] eq_refl).
Defined.

Lemma Copy_file_frames_witness :
  fst (Copy (demo_process 1) demo_write_ok stereo_i16 (file_reads 32770) 0 [])
    = (Z.of_nat 32770 - Z.of_nat ((32770 mod copy_buf)%nat),
       Some "incomplete input frame data"%string).
Proof.
  apply (proj1 (Copy_file_frames (demo_process 1) demo_write_ok stereo_i16 7 32770 []
                  eq_refl ltac:(vm_compute; reflexivity) ltac:(vm_compute; reflexivity)
                  ltac:(vm_compute; reflexivity) ltac:(vm_compute; discriminate)
                  ltac:(intro; reflexivity) ltac:(intro; reflexivity))).
  vm_compute. split; reflexivity.
Defined.

Lemma strToFormat_names_witness :
  strToFormat "I16" = Some (I16, None) /\
  strToFormat "wav" = Some (0, Some "unknown format wav"%string).
Proof.
  split.
  - apply (proj1 (strToFormat_names "I16" eq_refl) I16). simpl. tauto.
  - apply (proj2 (strToFormat_names "wav" eq_refl)).
    intros f H. simpl in H.
    repeat (destruct H as [H|H]; [discriminate H|]). exact H.
Defined.
